(** * minfs-docker-volume: the volume driver of [main.go]

    A shallow embedding of the [minfsDriver] methods that docker calls
    (Create, Remove, Path, Mount, Unmount, Get, List, Capabilities), and
    the properties of its mount reference counting.

    The driver struct holds a [map[string]*mountInfo]; it is a [gmap]
    here, and an update through the pointer stored in the map
    ([v.connections++]) is an insert at the same key.  Every method body
    runs under the driver's lock, so a method is one atomic step on the
    machine state. *)

From Stdlib Require Import ZArith String List Lia.
From stdpp Require Import base gmap strings list fin_maps.

Local Open Scope string_scope.
Local Open Scope list_scope.
Local Open Scope Z_scope.

(** ** Go's [int] on a 64-bit platform *)

Definition int_min : Z := - 2 ^ 63.
Definition int_max : Z := 2 ^ 63 - 1.

(** Two's complement wrap-around of an arithmetic result. *)
Definition int_wrap (z : Z) : Z := (z + 2 ^ 63) mod 2 ^ 64 - 2 ^ 63.

Definition int_ok (z : Z) : Prop := int_min <= z <= int_max.

(** ** Data of [main.go] *)

Record serverConfig := {
  endpoint : string;
  bucket : string;
  accessKey : string;
  secretKey : string
}.

Record mountInfo := {
  serverconfig : serverConfig;
  mountPoint : string;
  (* the number of containers using the mount. *)
  connections : Z
}.

(** The [sync.RWMutex] is the atomicity of a step; the [config] field is
    read by no method and is left out.  The struct declares the registry
    as [mounts] and every method but the empty duplicate check of Create
    reads and writes it as [d.volumes]: it is the one map [volumes]. *)
Record minfsDriver := {
  mountRoot : string;
  volumes : gmap string mountInfo
}.

Definition newMinfsDriver (root : string) : minfsDriver :=
  {| mountRoot := root; volumes := ∅ |}.

(** ** The [volume] package types the methods exchange with docker *)

Record volume_Request := {
  Name : string;
  (* a Go map, [None] when it is nil *)
  Options : option (gmap string string)
}.

Record volume_MountRequest := { MountName : string; MountID : string }.
Record volume_UnmountRequest := { UnmountName : string; UnmountID : string }.

Record volume_Volume := { VolName : string; VolMountpoint : string }.
Record volume_Capability := { Scope : string }.

Record volume_Response := {
  Mountpoint : string;
  Err : string;
  Volumes : list volume_Volume;
  Volume : option volume_Volume;
  (* the field Capabilities; the method of that name is below *)
  RespCapabilities : volume_Capability
}.

(** [volume.Response{}]: every field at its zero value. *)
Definition Response0 : volume_Response :=
  {| Mountpoint := ""; Err := ""; Volumes := []; Volume := None;
     RespCapabilities := {| Scope := "" |} |}.

(** Indexing a Go [map[string]string]: a missing key reads as [""]. *)
Definition index (opts : gmap string string) (k : string) : string :=
  default "" (opts !! k).

(** ** The operating system the driver calls into *)

(** A Go [error]: [None] is nil, [Some msg] an error whose [Error()] is
    [msg]. *)
Definition error := option string.

(** What [os.Lstat] returns: a [FileInfo] with a nil error, or a nil
    [FileInfo] with an error that [os.IsNotExist] accepts or rejects. *)
Inductive lstatResult :=
| FileInfo (isDir : bool)
| LstatNotExist
| LstatError (msg : string).

(** The calls of the packages [os], [os/exec] and [path/filepath] that the
    driver makes, over a world [W] that the calls may change. *)
Class OS (W : Type) := {
  filepath_Join : string → string → string;
  os_Lstat : string → W → lstatResult * W;
  os_MkdirAll : string → W → error * W;
  os_RemoveAll : string → W → error * W;
  (* exec.Command("sh", "-c", cmd).Run() *)
  exec_sh : string → W → error * W
}.

(** The two backend operations, as the log of the machine records them. *)
Inductive backendCall :=
| BackendMount (v : mountInfo)
| BackendUnmount (target : string).

Record machine (W : Type) := Machine {
  drv : minfsDriver;
  world : W;
  (* every call of mountVolume and unmountVolume so far, oldest first *)
  calls : list backendCall
}.
Arguments Machine {W} _ _ _.
Arguments drv {W} _.
Arguments world {W} _.
Arguments calls {W} _.

(** ** A state monad over the machine *)

Definition M (W A : Type) : Type := machine W → A * machine W.

Definition ret {W A} (a : A) : M W A := λ m, (a, m).

Definition bind {W A B} (c : M W A) (k : A → M W B) : M W B :=
  λ m, let '(a, m') := c m in k a m'.

Notation "x <~ c ;; k" := (bind c (λ x, k))
  (at level 100, c at next level, right associativity).
Notation "c ;;; k" := (bind c (λ _, k))
  (at level 100, right associativity).

Section Driver.
Context {W : Type} `{!OS W}.

Definition getVolumes : M W (gmap string mountInfo) :=
  λ m, (volumes (drv m), m).

Definition getMountRoot : M W string :=
  λ m, (mountRoot (drv m), m).

(** [d.volumes[name] = v], and a write through the pointer [v] that
    [d.volumes[name]] holds. *)
Definition setVolume (name : string) (v : mountInfo) : M W unit :=
  λ m, (tt, Machine {| mountRoot := mountRoot (drv m);
                       volumes := <[name := v]> (volumes (drv m)) |}
                    (world m) (calls m)).

(** [delete(d.volumes, name)] *)
Definition deleteVolume (name : string) : M W unit :=
  λ m, (tt, Machine {| mountRoot := mountRoot (drv m);
                       volumes := delete name (volumes (drv m)) |}
                    (world m) (calls m)).

Definition sys {A} (f : W → A * W) : M W A :=
  λ m, let '(a, w) := f (world m) in (a, Machine (drv m) w (calls m)).

Definition logCall (c : backendCall) : M W unit :=
  λ m, (tt, Machine (drv m) (world m) (calls m ++ [c])).

(** [errorResponse] and [responseError] (the source uses both names for
    the one helper); the logging is not modelled. *)
Definition errorResponse (err : string) : M W volume_Response :=
  ret {| Mountpoint := ""; Err := err; Volumes := []; Volume := None;
         RespCapabilities := {| Scope := "" |} |}.

Definition responseError := errorResponse.

Definition mountpointResponse (p : string) : volume_Response :=
  {| Mountpoint := p; Err := ""; Volumes := []; Volume := None;
     RespCapabilities := {| Scope := "" |} |}.

Definition mountVolume (v : mountInfo) : M W error :=
  logCall (BackendMount v) ;;;
  sys (exec_sh "<mount here>").

Definition unmountVolume (target : string) : M W error :=
  logCall (BackendUnmount target) ;;;
  sys (exec_sh ("umount " +:+ target)).

(** The duplicate check of the source, [if ok := d.mounts[r.Name]; ok
    { }], has an empty body and does not appear below.  The value the
    source stores is the [mountInfo] it has just built, whose
    [connections] is at its zero value. *)
Definition Create (r : volume_Request) : M W volume_Response :=
  if decide (Name r = "") then
    errorResponse "Name of the driver cannot be empty.Use `$ docker volume create -d <plugin-name> --name <volume-name>`"
  else
    match Options r with
    | None => errorResponse "No options provided. Please refer example usage."
    | Some opts =>
      if decide (index opts "endpoint" = "") then
        errorResponse "endpoint option cannot be empty."
      else if decide (index opts "bucket" = "") then
        errorResponse "bucket option cannot be empty."
      else if decide (index opts "access-key" = "") then
        errorResponse "access-key option cannot be empty"
      else if decide (index opts "secret-key" = "") then
        errorResponse "secret-key cannot be empty."
      else
        root <~ getMountRoot ;;
        let config := {| endpoint := index opts "endpoint";
                         bucket := index opts "bucket";
                         accessKey := index opts "access-key";
                         secretKey := index opts "secret-key" |} in
        let mntInfo := {| serverconfig := config;
                          mountPoint := filepath_Join root (Name r);
                          connections := 0 |} in
        setVolume (Name r) mntInfo ;;;
        ret Response0
    end.

Definition Remove (r : volume_Request) : M W volume_Response :=
  vols <~ getVolumes ;;
  match vols !! Name r with
  | None => responseError ("volume " +:+ Name r +:+ " not found")
  | Some v =>
    if decide (connections v = 0) then
      err <~ sys (os_RemoveAll (mountPoint v)) ;;
      match err with
      | Some msg => responseError msg
      | None => deleteVolume (Name r) ;;; ret Response0
      end
    else
      responseError ("volume " +:+ Name r +:+ " is currently used by a container")
  end.

Definition Path (r : volume_Request) : M W volume_Response :=
  vols <~ getVolumes ;;
  match vols !! Name r with
  | None => responseError ("volume " +:+ Name r +:+ " not found")
  | Some v => ret (mountpointResponse (mountPoint v))
  end.

Definition Mount (r : volume_MountRequest) : M W volume_Response :=
  vols <~ getVolumes ;;
  match vols !! MountName r with
  | None => responseError ("volume " +:+ MountName r +:+ " not found")
  | Some v =>
    if decide (connections v > 0) then
      setVolume (MountName r)
        {| serverconfig := serverconfig v; mountPoint := mountPoint v;
           connections := int_wrap (connections v + 1) |} ;;;
      ret (mountpointResponse (mountPoint v))
    else
      let mount : M W volume_Response :=
        err <~ mountVolume v ;;
        match err with
        | Some msg => responseError msg
        | None => ret (mountpointResponse (mountPoint v))
        end in
      st <~ sys (os_Lstat (mountPoint v)) ;;
      match st with
      | LstatNotExist =>
        err <~ sys (os_MkdirAll (mountPoint v)) ;;
        match err with
        | Some msg => responseError msg
        | None => mount
        end
      | LstatError msg => responseError msg
      | FileInfo isDir =>
        if negb isDir then
          responseError (mountPoint v +:+ " already exist and it's not a directory")
        else mount
      end
  end.

Definition Unmount (r : volume_UnmountRequest) : M W volume_Response :=
  vols <~ getVolumes ;;
  match vols !! UnmountName r with
  | None => responseError ("volume " +:+ UnmountName r +:+ " not found")
  | Some v =>
    if decide (connections v <= 1) then
      err <~ unmountVolume (mountPoint v) ;;
      match err with
      | Some msg => responseError msg
      | None =>
        setVolume (UnmountName r)
          {| serverconfig := serverconfig v; mountPoint := mountPoint v;
             connections := 0 |} ;;;
        ret Response0
      end
    else
      setVolume (UnmountName r)
        {| serverconfig := serverconfig v; mountPoint := mountPoint v;
           connections := int_wrap (connections v - 1) |} ;;;
      ret Response0
  end.

Definition Get (r : volume_Request) : M W volume_Response :=
  vols <~ getVolumes ;;
  match vols !! Name r with
  | None => responseError ("volume " +:+ Name r +:+ " not found")
  | Some v =>
    ret {| Mountpoint := ""; Err := ""; Volumes := [];
           Volume := Some {| VolName := Name r;
                             VolMountpoint := mountPoint v |};
           RespCapabilities := {| Scope := "" |} |}
  end.

(** Go ranges over the map in an unspecified order; the order of
    [map_to_list] stands for it, and statements about the listing are
    up to permutation. *)
Definition List (r : volume_Request) : M W volume_Response :=
  vols <~ getVolumes ;;
  ret {| Mountpoint := ""; Err := "";
         Volumes := (λ nv, {| VolName := nv.1;
                              VolMountpoint := mountPoint nv.2 |})
                      <$> map_to_list vols;
         Volume := None;
         RespCapabilities := {| Scope := "" |} |}.

Definition Capabilities (r : volume_Request) : M W volume_Response :=
  ret {| Mountpoint := ""; Err := ""; Volumes := []; Volume := None;
         RespCapabilities := {| Scope := "local" |} |}.

(** The mount path is there as a directory: [os.Lstat] finds a
    directory, or finds nothing and [os.MkdirAll] then succeeds. *)
Definition mountpointReady (p : string) (w w' : W) : Prop :=
  os_Lstat p w = (FileInfo true, w') ∨
  ∃ w0, os_Lstat p w = (LstatNotExist, w0) ∧ os_MkdirAll p w0 = (None, w').

(** ** Sequences of requests *)

Inductive request :=
| ReqCreate (r : volume_Request)
| ReqRemove (r : volume_Request)
| ReqPath (r : volume_Request)
| ReqMount (r : volume_MountRequest)
| ReqUnmount (r : volume_UnmountRequest)
| ReqGet (r : volume_Request)
| ReqList (r : volume_Request)
| ReqCapabilities (r : volume_Request).

Definition serve (q : request) : M W volume_Response :=
  match q with
  | ReqCreate r => Create r
  | ReqRemove r => Remove r
  | ReqPath r => Path r
  | ReqMount r => Mount r
  | ReqUnmount r => Unmount r
  | ReqGet r => Get r
  | ReqList r => List r
  | ReqCapabilities r => Capabilities r
  end.

(** The machine after a sequence of requests, served one at a time. *)
Fixpoint serveAll (qs : list request) (m : machine W) : machine W :=
  match qs with
  | [] => m
  | q :: qs' => serveAll qs' (serve q m).2
  end.

(** The driver as [main] starts it. *)
Definition start (root : string) (w : W) : machine W :=
  Machine (newMinfsDriver root) w [].

End Driver.

(** ** A small deterministic operating system

    Enough of a file system and a shell to run the driver on concrete
    requests: [files] lists the paths that exist and whether each is a
    directory, [failing] the shell commands that exit with an error, and
    [readonly] makes directory creation and removal fail. *)

Record simWorld := SimWorld {
  files : list (string * bool);
  failing : list string;
  readonly : bool
}.

Fixpoint lookupFile (p : string) (fs : list (string * bool)) : option bool :=
  match fs with
  | [] => None
  | (q, d) :: fs' => if String.eqb p q then Some d else lookupFile p fs'
  end.

Fixpoint removeFile (p : string) (fs : list (string * bool)) : list (string * bool) :=
  match fs with
  | [] => []
  | (q, d) :: fs' =>
    if String.eqb p q then removeFile p fs' else (q, d) :: removeFile p fs'
  end.

Definition sim_Lstat (p : string) (w : simWorld) : lstatResult * simWorld :=
  match lookupFile p (files w) with
  | Some d => (FileInfo d, w)
  | None => (LstatNotExist, w)
  end.

Definition sim_MkdirAll (p : string) (w : simWorld) : error * simWorld :=
  if readonly w then (Some ("mkdir " +:+ p +:+ ": read-only file system"), w)
  else (None, SimWorld ((p, true) :: files w) (failing w) (readonly w)).

Definition sim_RemoveAll (p : string) (w : simWorld) : error * simWorld :=
  if readonly w then (Some ("unlinkat " +:+ p +:+ ": read-only file system"), w)
  else (None, SimWorld (removeFile p (files w)) (failing w) (readonly w)).

Definition sim_sh (cmd : string) (w : simWorld) : error * simWorld :=
  if existsb (String.eqb cmd) (failing w) then (Some "exit status 1", w)
  else (None, w).

#[global] Instance simOS : OS simWorld := {|
  filepath_Join := λ a b, a +:+ "/" +:+ b;
  os_Lstat := sim_Lstat;
  os_MkdirAll := sim_MkdirAll;
  os_RemoveAll := sim_RemoveAll;
  exec_sh := sim_sh
|}.

(** The requests of the examples: a volume [vol] on a play server. *)
Definition playOptions : gmap string string :=
  <["endpoint" := "https://play.minio.io:9000"]>
  (<["bucket" := "test-bucket"]>
  (<["access-key" := "Q3AM3UQ867SPQQA43P2F"]>
  (<["secret-key" := "zuf+tfteSlswRu7BJ86wekitnifILbZam1KYY3TG"]> ∅))).

Definition createVol : volume_Request :=
  {| Name := "vol"; Options := Some playOptions |}.

(** The same name with another endpoint. *)
Definition createOther : volume_Request :=
  {| Name := "vol";
     Options := Some (<["endpoint" := "https://other.example:9000"]> playOptions) |}.
Definition mountVol : volume_MountRequest :=
  {| MountName := "vol"; MountID := "c1" |}.
Definition unmountVol : volume_UnmountRequest :=
  {| UnmountName := "vol"; UnmountID := "c1" |}.

Definition playConfig : serverConfig :=
  {| endpoint := "https://play.minio.io:9000"; bucket := "test-bucket";
     accessKey := "Q3AM3UQ867SPQQA43P2F";
     secretKey := "zuf+tfteSlswRu7BJ86wekitnifILbZam1KYY3TG" |}.

Definition volInfo (n : Z) : mountInfo :=
  {| serverconfig := playConfig; mountPoint := "/tmp/vol"; connections := n |}.

(** An empty file system on which every command succeeds. *)
Definition calm : simWorld := SimWorld [] [] false.

(** A shell in which the one command [cmd] fails. *)
Definition failingOn (cmd : string) : simWorld := SimWorld [] [cmd] false.

(** The file system once the mount path of [vol] has been made. *)
Definition withMountpoint (w : simWorld) : simWorld :=
  SimWorld (("/tmp/vol", true) :: files w) (failing w) (readonly w).

(** A machine whose registry holds [vol] with [n] connections. *)
Definition holding (n : Z) (w : simWorld) : machine simWorld :=
  Machine {| mountRoot := "/tmp"; volumes := {["vol" := volInfo n]} |} w [].

(** Create without a secret key. *)
Definition createNoSecret : volume_Request :=
  {| Name := "vol"; Options := Some (delete "secret-key" playOptions) |}.

(** The four options Create requires, and the errors it answers with when
    the name, the options or one of the four is missing. *)
Definition credentialOptions : list string :=
  ["endpoint"; "bucket"; "access-key"; "secret-key"].

Definition invalidArgumentErrors : list string :=
  ["Name of the driver cannot be empty.Use `$ docker volume create -d <plugin-name> --name <volume-name>`";
   "No options provided. Please refer example usage.";
   "endpoint option cannot be empty.";
   "bucket option cannot be empty.";
   "access-key option cannot be empty";
   "secret-key cannot be empty."].

(** The [mountInfo] that Create builds from a request. *)
Definition createdInfo `{!OS W} (root : string) (name : string)
    (opts : gmap string string) : mountInfo :=
  {| serverconfig := {| endpoint := index opts "endpoint";
                        bucket := index opts "bucket";
                        accessKey := index opts "access-key";
                        secretKey := index opts "secret-key" |};
     mountPoint := filepath_Join root name;
     connections := 0 |}.

(** A driver with one more or one changed registration. *)
Definition withVolume (d : minfsDriver) (name : string) (v : mountInfo)
    : minfsDriver :=
  {| mountRoot := mountRoot d; volumes := <[name := v]> (volumes d) |}.

Definition withConnections (v : mountInfo) (n : Z) : mountInfo :=
  {| serverconfig := serverconfig v; mountPoint := mountPoint v;
     connections := n |}.

(** Every registered volume has a count from 0 up to, and not at, the
    largest [int]. *)
Definition countsInRange (d : minfsDriver) : Prop :=
  ∀ name v, volumes d !! name = Some v → 0 <= connections v < int_max.

Definition countsNonNegative (d : minfsDriver) : Prop :=
  ∀ name v, volumes d !! name = Some v → 0 <= connections v.

(** Every registered volume has no connection counted. *)
Definition unreferenced (d : minfsDriver) : Prop :=
  ∀ name v, volumes d !! name = Some v → connections v = 0.

(** ** Notions for statements about requests in general *)

(** The volume name a request carries. *)
Definition requestName (q : request) : string :=
  match q with
  | ReqCreate r | ReqRemove r | ReqPath r | ReqGet r | ReqList r
  | ReqCapabilities r => Name r
  | ReqMount r => MountName r
  | ReqUnmount r => UnmountName r
  end.

(** The requests whose methods only read the registry. *)
Definition readOnly (q : request) : bool :=
  match q with
  | ReqPath _ | ReqGet _ | ReqList _ | ReqCapabilities _ => true
  | _ => false
  end.

(** The requests whose methods look the name up and answer "not found"
    when it is not registered. *)
Definition needsVolume (q : request) : bool :=
  match q with
  | ReqRemove _ | ReqPath _ | ReqMount _ | ReqUnmount _ | ReqGet _ => true
  | _ => false
  end.

(** The requests whose methods can call the backend. *)
Definition usesBackend (q : request) : bool :=
  match q with
  | ReqMount _ | ReqUnmount _ => true
  | _ => false
  end.

(** A Create request for the name [name]. *)
Definition creates (name : string) (q : request) : bool :=
  match q with
  | ReqCreate r => String.eqb (Name r) name
  | _ => false
  end.

Definition nonEmpty (s : string) : bool := negb (String.eqb s "").

(** A request that passes every input check of Create. *)
Definition validCreate (r : volume_Request) : bool :=
  nonEmpty (Name r) &&
  match Options r with
  | None => false
  | Some opts => forallb (λ k, nonEmpty (index opts k)) credentialOptions
  end.

(** The entry of a listing for a registered volume. *)
Definition listed (name : string) (v : mountInfo) : volume_Volume :=
  {| VolName := name; VolMountpoint := mountPoint v |}.

(** A driver without the registration of [name]. *)
Definition withoutVolume (d : minfsDriver) (name : string) : minfsDriver :=
  {| mountRoot := mountRoot d; volumes := delete name (volumes d) |}.

(** An operating system that refuses every call. *)
#[global] Instance deniedOS : OS unit := {|
  filepath_Join := λ a b, a +:+ "/" +:+ b;
  os_Lstat := λ p w, (LstatError ("lstat " +:+ p +:+ ": permission denied"), w);
  os_MkdirAll := λ p w, (Some ("mkdir " +:+ p +:+ ": permission denied"), w);
  os_RemoveAll := λ p w, (Some ("unlinkat " +:+ p +:+ ": permission denied"), w);
  exec_sh := λ cmd w, (Some "exit status 126", w)
|}.

(** File systems in which the mount path of [vol] is a regular file, and
    in which nothing can be written. *)
Definition blocked : simWorld := SimWorld [("/tmp/vol", false)] [] false.
Definition frozen : simWorld := SimWorld [] [] true.

(** A machine over the refusing operating system, with [vol] registered. *)
Definition denied : machine unit :=
  Machine {| mountRoot := "/tmp"; volumes := {["vol" := volInfo 0]} |} tt [].

(** Create and a first Mount of [vol], as docker sends them. *)
Definition createAndMount : list request :=
  [ReqCreate createVol; ReqMount mountVol].

(** A machine that registers [vol] and a second volume [other]. *)
Definition otherInfo : mountInfo :=
  {| serverconfig := playConfig; mountPoint := "/tmp/other"; connections := 0 |}.

Definition holdingTwo (n : Z) (w : simWorld) : machine simWorld :=
  Machine {| mountRoot := "/tmp";
             volumes := <["other" := otherInfo]> {["vol" := volInfo n]} |} w [].

(** ** Stepping lemmas *)

Ltac unfold_driver :=
  unfold Create, Remove, Path, Mount, Unmount, Get, List, Capabilities,
    mountVolume, unmountVolume, responseError, errorResponse,
    setVolume, deleteVolume, getVolumes, getMountRoot, sys, logCall,
    bind, ret in *.

(** Case analysis on the result of a system call met in the goal. *)
Ltac case_sys :=
  match goal with
  | |- context [os_Lstat ?p ?w] =>
      let st := fresh "st" in let w' := fresh "w" in
      destruct (os_Lstat p w) as [st w'] eqn:?; destruct st as [[|] | |?]
  | |- context [os_MkdirAll ?p ?w] =>
      let e := fresh "e" in let w' := fresh "w" in
      destruct (os_MkdirAll p w) as [e w'] eqn:?; destruct e
  | |- context [os_RemoveAll ?p ?w] =>
      let e := fresh "e" in let w' := fresh "w" in
      destruct (os_RemoveAll p w) as [e w'] eqn:?; destruct e
  | |- context [exec_sh ?c ?w] =>
      let e := fresh "e" in let w' := fresh "w" in
      destruct (exec_sh c w) as [e w'] eqn:?; destruct e
  end; simpl.

Lemma int_wrap_id (z : Z) : int_ok z → int_wrap z = z.
Proof.
  unfold int_ok, int_min, int_max, int_wrap. intros Hz.
  rewrite Z.mod_small; lia.
Qed.

Section Properties.
Context {W : Type} `{!OS W}.
Implicit Types (m : machine W) (v : mountInfo) (w : W).

Lemma Mount_not_found m r :
  volumes (drv m) !! MountName r = None →
  Mount r m = responseError ("volume " +:+ MountName r +:+ " not found") m.
Proof. intros H. unfold_driver. simpl. by rewrite H. Qed.

(** With no connection counted, Mount never writes to the registry,
    whatever the system calls answer. *)
Lemma Mount_unreferenced_drv m r v :
  volumes (drv m) !! MountName r = Some v →
  ¬ connections v > 0 →
  drv (Mount r m).2 = drv m.
Proof.
  intros Hv Hc. unfold_driver. simpl. rewrite Hv.
  destruct (decide (connections v > 0)); [done|].
  repeat (case_sys; try done).
Qed.

(** The first-mount path when the directory is ready: the backend is
    called once and its answer decides the response. *)
Lemma Mount_unreferenced_ready m r v w1 :
  volumes (drv m) !! MountName r = Some v →
  ¬ connections v > 0 →
  mountpointReady (mountPoint v) (world m) w1 →
  Mount r m =
    let '(err, w2) := exec_sh "<mount here>" w1 in
    (match err with
     | Some msg => (responseError msg m).1
     | None => mountpointResponse (mountPoint v)
     end,
     Machine (drv m) w2 (calls m ++ [BackendMount v])).
Proof.
  intros Hv Hc Hready. unfold_driver. simpl. rewrite Hv.
  destruct (decide (connections v > 0)); [done|].
  destruct Hready as [Hst | (w0 & Hst & Hmk)].
  - rewrite Hst. simpl. by case_sys.
  - rewrite Hst. simpl. rewrite Hmk. simpl. by case_sys.
Qed.

Lemma Mount_referenced m r v :
  volumes (drv m) !! MountName r = Some v →
  connections v > 0 →
  Mount r m =
    (mountpointResponse (mountPoint v),
     Machine {| mountRoot := mountRoot (drv m);
                volumes := <[MountName r :=
                  {| serverconfig := serverconfig v;
                     mountPoint := mountPoint v;
                     connections := int_wrap (connections v + 1) |}]>
                  (volumes (drv m)) |}
             (world m) (calls m)).
Proof.
  intros Hv Hc. unfold_driver. simpl. rewrite Hv.
  by destruct (decide (connections v > 0)).
Qed.

End Properties.

(** ** Mount *)

(** C1 (the code departs from it): on a fresh volume the requests Mount,
    Mount, Unmount, Unmount, every system call succeeding, run the
    backend mount twice and the backend unmount twice, and the connection
    count reads 0 after each of them: the first Mount never counts its
    caller, so every later Mount and Unmount is a first and a last one. *)
Theorem Mount_Mount_Unmount_Unmount_fresh :
  let m0 := serveAll [ReqCreate createVol] (start "/tmp" calm) in
  let m1 := (Mount mountVol m0).2 in
  let m2 := (Mount mountVol m1).2 in
  let m3 := (Unmount unmountVol m2).2 in
  let m4 := (Unmount unmountVol m3).2 in
  calls m4 = [BackendMount (volInfo 0); BackendMount (volInfo 0);
              BackendUnmount "/tmp/vol"; BackendUnmount "/tmp/vol"] ∧
  (λ m : machine simWorld, connections <$> volumes (drv m) !! "vol")
    <$> [m0; m1; m2; m3; m4]
  = [Some 0; Some 0; Some 0; Some 0; Some 0] ∧
  Err <$> [(Mount mountVol m0).1; (Mount mountVol m1).1;
           (Unmount unmountVol m2).1; (Unmount unmountVol m3).1]
  = [""; ""; ""; ""].
Proof. vm_compute. done. Qed.

Section MountProperties.
Context {W : Type} `{!OS W}.
Implicit Types (m : machine W) (v : mountInfo) (w : W).

(** C2 (the code departs from it): for a registered volume with no
    connection, once the mount path is ready as a directory and the
    backend mount succeeds, Mount has called the backend once and
    returns the mount path, but the volume is stored as it was: its
    connection count is still 0, not 1. *)
Theorem Mount_first_success m r v w1 w2 :
  volumes (drv m) !! MountName r = Some v →
  connections v = 0 →
  mountpointReady (mountPoint v) (world m) w1 →
  exec_sh "<mount here>" w1 = (None, w2) →
  (Mount r m).1 = mountpointResponse (mountPoint v) ∧
  calls (Mount r m).2 = calls m ++ [BackendMount v] ∧
  world (Mount r m).2 = w2 ∧
  volumes (drv (Mount r m).2) !! MountName r = Some v ∧
  connections <$> volumes (drv (Mount r m).2) !! MountName r ≠ Some 1.
Proof.
  intros Hv Hc Hready Hsh.
  rewrite (Mount_unreferenced_ready m r v w1) by (done || lia).
  rewrite Hsh. simpl. rewrite Hv. simpl. rewrite Hc. done.
Qed.

(** C6: for a registered volume with no connection, when the mount path
    is ready and the backend mount fails with text [msg], Mount has
    called the backend, answers with [msg] as its error, and leaves the
    registry as it was, the count at 0; and a Mount served on any later
    machine with that registry calls the backend mount again as soon as
    the mount path is ready. *)
Theorem Mount_backend_failure_then_retry m r v w1 w2 msg :
  volumes (drv m) !! MountName r = Some v →
  connections v = 0 →
  mountpointReady (mountPoint v) (world m) w1 →
  exec_sh "<mount here>" w1 = (Some msg, w2) →
  Err (Mount r m).1 = msg ∧
  calls (Mount r m).2 = calls m ++ [BackendMount v] ∧
  drv (Mount r m).2 = drv m ∧
  connections <$> volumes (drv (Mount r m).2) !! MountName r = Some 0 ∧
  ∀ m' w3,
    drv m' = drv (Mount r m).2 →
    mountpointReady (mountPoint v) (world m') w3 →
    calls (Mount r m').2 = calls m' ++ [BackendMount v].
Proof.
  intros Hv Hc Hready Hsh.
  assert (Hn : ¬ connections v > 0) by lia.
  rewrite (Mount_unreferenced_ready m r v w1) by done.
  rewrite Hsh. simpl. rewrite Hv. simpl. rewrite Hc.
  repeat split; try done.
  intros m' w3 Hdrv Hready'.
  rewrite (Mount_unreferenced_ready m' r v w3); try done.
  - by destruct (exec_sh "<mount here>" w3) as [[?|] ?].
  - by rewrite Hdrv.
Qed.

(** C10: a Mount that answers with an error leaves the driver, its
    registry with every volume's count and registration, as it was; and
    so does every Mount of an unregistered name and every Mount of a
    volume that has no connection, whatever [os.Lstat], [os.MkdirAll]
    and the backend answer. *)
Theorem Mount_error_keeps_registry m r :
  (Err (Mount r m).1 ≠ "" → drv (Mount r m).2 = drv m) ∧
  (volumes (drv m) !! MountName r = None → drv (Mount r m).2 = drv m) ∧
  (∀ v, volumes (drv m) !! MountName r = Some v → ¬ connections v > 0 →
        drv (Mount r m).2 = drv m).
Proof.
  assert (Hnone : volumes (drv m) !! MountName r = None →
                  drv (Mount r m).2 = drv m).
  { intros H. by rewrite Mount_not_found. }
  assert (Hzero : ∀ v, volumes (drv m) !! MountName r = Some v →
                       ¬ connections v > 0 → drv (Mount r m).2 = drv m).
  { intros v. apply Mount_unreferenced_drv. }
  split; [|done].
  destruct (volumes (drv m) !! MountName r) as [v|] eqn:Hv; [|by auto].
  destruct (decide (connections v > 0)) as [Hc|Hc]; [|by eauto].
  rewrite (Mount_referenced m r v) by done. simpl. done.
Qed.

End MountProperties.

(** ** Unmount and Remove *)

Section UnmountProperties.
Context {W : Type} `{!OS W}.
Implicit Types (m : machine W) (v : mountInfo) (w : W).

(** C3: Unmount of an unregistered name answers "volume ... not found"
    and changes nothing.  For a registered volume with at most one
    connection it calls the backend unmount on the mount path: when
    that succeeds the count is set to 0, when it fails with text [msg]
    the answer carries [msg] as its error and the registry is as it
    was.  With more than one connection the count goes down by one and
    the backend is not called. *)
Theorem Unmount_cases m r :
  (volumes (drv m) !! UnmountName r = None →
     Err (Unmount r m).1 = "volume " +:+ UnmountName r +:+ " not found" ∧
     (Unmount r m).2 = m) ∧
  (∀ v, volumes (drv m) !! UnmountName r = Some v →
     (∀ w', connections v <= 1 →
        exec_sh ("umount " +:+ mountPoint v) (world m) = (None, w') →
        Unmount r m =
          (Response0,
           Machine (withVolume (drv m) (UnmountName r) (withConnections v 0))
                   w' (calls m ++ [BackendUnmount (mountPoint v)]))) ∧
     (∀ msg w', connections v <= 1 →
        exec_sh ("umount " +:+ mountPoint v) (world m) = (Some msg, w') →
        Err (Unmount r m).1 = msg ∧
        (Unmount r m).2 =
          Machine (drv m) w' (calls m ++ [BackendUnmount (mountPoint v)])) ∧
     (connections v > 1 → connections v <= int_max →
        Unmount r m =
          (Response0,
           Machine (withVolume (drv m) (UnmountName r)
                      (withConnections v (connections v - 1)))
                   (world m) (calls m)))).
Proof.
  split; [|intros v Hv; split; [|split]].
  - intros Hv. unfold_driver. simpl. by rewrite Hv.
  - intros w' Hc Hsh. unfold_driver. simpl. rewrite Hv.
    destruct (decide (connections v <= 1)); [|done].
    simpl. by rewrite Hsh.
  - intros msg w' Hc Hsh. unfold_driver. simpl. rewrite Hv.
    destruct (decide (connections v <= 1)); [|done].
    simpl. by rewrite Hsh.
  - intros Hc Hmax. unfold_driver. simpl. rewrite Hv.
    destruct (decide (connections v <= 1)); [lia|].
    rewrite int_wrap_id; [done|].
    unfold int_ok, int_min, int_max in *. lia.
Qed.

(** C5: Remove of an unregistered name answers "volume ... not found",
    Remove of a volume with a connection answers "volume ... is
    currently used by a container"; both leave the machine, registry
    and file system, as it was. *)
Theorem Remove_refused m r :
  (volumes (drv m) !! Name r = None →
     Err (Remove r m).1 = "volume " +:+ Name r +:+ " not found" ∧
     (Remove r m).2 = m) ∧
  (∀ v, volumes (drv m) !! Name r = Some v → connections v > 0 →
     Err (Remove r m).1 =
       "volume " +:+ Name r +:+ " is currently used by a container" ∧
     (Remove r m).2 = m ∧
     volumes (drv (Remove r m).2) !! Name r = Some v).
Proof.
  split.
  - intros Hv. unfold_driver. simpl. by rewrite Hv.
  - intros v Hv Hc. unfold_driver. simpl. rewrite Hv.
    destruct (decide (connections v = 0)); [lia|]. done.
Qed.

End UnmountProperties.

(** ** Create *)

Section CreateProperties.
Context {W : Type} `{!OS W}.
Implicit Types (m : machine W) (v : mountInfo) (w : W).

Lemma Create_valid m r opts :
  Name r ≠ "" →
  Options r = Some opts →
  (∀ k, In k credentialOptions → index opts k ≠ "") →
  Create r m =
    (Response0,
     Machine (withVolume (drv m) (Name r)
                (createdInfo (mountRoot (drv m)) (Name r) opts))
             (world m) (calls m)).
Proof.
  intros Hname Hopts Hall. unfold_driver. simpl.
  destruct (decide (Name r = "")); [done|]. rewrite Hopts.
  repeat match goal with
  | |- context [decide (index opts ?k = "")] =>
      destruct (decide (index opts k = "")) as [He|_];
      [exfalso; apply (Hall k); [simpl; tauto | exact He]|]
  end.
  done.
Qed.

(** C7: a Create request whose name is empty, whose options are nil, or
    in which one of endpoint, bucket, access-key, secret-key is missing
    or empty, is answered with one of the errors of the input checks,
    leaves the machine as it was, and the listing of the volumes after
    it is the listing before it. *)
Theorem Create_invalid_registers_nothing m r :
  (Name r = "" ∨ Options r = None ∨
   ∃ opts k, Options r = Some opts ∧ In k credentialOptions ∧
             index opts k = "") →
  In (Err (Create r m).1) invalidArgumentErrors ∧
  Err (Create r m).1 ≠ "" ∧
  (Create r m).2 = m ∧
  ∀ q, Volumes (List q (Create r m).2).1 ≡ₚ Volumes (List q m).1.
Proof.
  intros Hbad.
  assert (Hshape : ∃ e, In e invalidArgumentErrors ∧
                        Create r m = errorResponse e m).
  { unfold Create.
    destruct (decide (Name r = "")); [eexists; split; [|done]; simpl; tauto|].
    destruct Hbad as [?|[Hnil|(opts & k & Hopts & Hk & Hempty)]]; [done| |].
    - rewrite Hnil. eexists; split; [|done]; simpl; tauto.
    - rewrite Hopts.
      repeat match goal with
      | |- context [decide (index opts ?k' = "")] =>
          destruct (decide (index opts k' = ""));
          [eexists; split; [|done]; simpl; tauto|]
      end.
      simpl in Hk. intuition congruence. }
  destruct Hshape as (e & He & ->). simpl.
  repeat split; try done.
  simpl in He. intuition (subst; discriminate).
Qed.

(** C9: a Create request with a non-empty name that is already
    registered and with the four options non-empty succeeds and stores,
    under that name, the record built from the request: the server
    configuration of the new options, the mount path joined from the
    mount root and the name, and a connection count of 0; the record
    stored before is gone, and every other registration is kept. *)
Theorem Create_existing_overwrites m r opts old :
  volumes (drv m) !! Name r = Some old →
  Name r ≠ "" →
  Options r = Some opts →
  (∀ k, In k credentialOptions → index opts k ≠ "") →
  (Create r m).1 = Response0 ∧
  volumes (drv (Create r m).2) !! Name r
    = Some (createdInfo (mountRoot (drv m)) (Name r) opts) ∧
  connections <$> volumes (drv (Create r m).2) !! Name r = Some 0 ∧
  (∀ other, other ≠ Name r →
     volumes (drv (Create r m).2) !! other = volumes (drv m) !! other) ∧
  world (Create r m).2 = world m ∧ calls (Create r m).2 = calls m.
Proof.
  intros _ Hname Hopts Hall.
  rewrite (Create_valid m r opts) by done. simpl.
  rewrite lookup_insert_eq. repeat split; try done.
  intros other Hne. by rewrite lookup_insert_ne.
Qed.

End CreateProperties.

(** C4 (the code departs from it): Create of the name [vol], already
    registered by a first Create, with another endpoint: the answer
    carries no error and the registration now holds the second
    request's endpoint. *)
Theorem Create_twice_replaces_registration :
  let m1 := (Create createVol (start "/tmp" calm)).2 in
  volumes (drv m1) !! "vol" = Some (volInfo 0) ∧
  Err (Create createOther m1).1 = "" ∧
  endpoint ∘ serverconfig <$> volumes (drv (Create createOther m1).2) !! "vol"
    = Some "https://other.example:9000" ∧
  volumes (drv (Create createOther m1).2) !! "vol" ≠ volumes (drv m1) !! "vol".
Proof. vm_compute. repeat split; congruence. Qed.

(** ** The connection count over sequences of requests *)

Section Invariant.
Context {W : Type} `{!OS W}.
Implicit Types (m : machine W) (v : mountInfo) (w : W).

Lemma unreferenced_insert (d : minfsDriver) name v :
  unreferenced d → connections v = 0 → unreferenced (withVolume d name v).
Proof.
  intros Hd Hv name' v'. simpl. rewrite lookup_insert.
  case_decide; [by intros [= <-]|apply Hd].
Qed.

Lemma unreferenced_delete (d : minfsDriver) name :
  unreferenced d →
  unreferenced {| mountRoot := mountRoot d;
                  volumes := delete name (volumes d) |}.
Proof.
  intros Hd name' v'. simpl. rewrite lookup_delete.
  case_decide; [done|apply Hd].
Qed.

(** No request counts a connection on a registry that has none: Create
    stores a count of 0, Remove only deletes, Mount of a volume with no
    connection writes nothing, Unmount writes 0, and the four others
    only read. *)
Lemma serve_unreferenced q m :
  unreferenced (drv m) → unreferenced (drv (serve q m).2).
Proof.
  intros Hm. destruct q as [r|r|r|r|r|r|r|r]; simpl.
  - unfold Create.
    destruct (decide (Name r = "")); [done|].
    destruct (Options r) as [opts|]; [|done].
    repeat match goal with
    | |- context [decide (index opts ?k = "")] =>
        destruct (decide (index opts k = "")); [done|]
    end.
    by apply unreferenced_insert.
  - unfold_driver. simpl.
    destruct (volumes (drv m) !! Name r) as [v|]; [|done].
    destruct (decide (connections v = 0)); [|done].
    case_sys; [done|]. by apply unreferenced_delete.
  - unfold_driver. simpl.
    by destruct (volumes (drv m) !! Name r).
  - destruct (volumes (drv m) !! MountName r) as [v|] eqn:Hv.
    + rewrite (Mount_unreferenced_drv m r v); [done..|].
      rewrite (Hm _ _ Hv). lia.
    + by rewrite Mount_not_found.
  - unfold_driver. simpl.
    destruct (volumes (drv m) !! UnmountName r) as [v|] eqn:Hv; [|done].
    destruct (decide (connections v <= 1)); simpl.
    + case_sys; [done|]. by apply unreferenced_insert.
    + pose proof (Hm _ _ Hv). lia.
  - unfold_driver. simpl.
    by destruct (volumes (drv m) !! Name r).
  - done.
  - done.
Qed.

Lemma countsNonNegative_insert (d : minfsDriver) name v :
  countsNonNegative d → 0 <= connections v →
  countsNonNegative (withVolume d name v).
Proof.
  intros Hd Hv name' v'. simpl. rewrite lookup_insert.
  case_decide; [by intros [= <-]|apply Hd].
Qed.

(** One request, on any registry whose counts are in range, counted or
    not: no count becomes negative. *)
Lemma serve_countsNonNegative q m :
  countsInRange (drv m) → countsNonNegative (drv (serve q m).2).
Proof.
  intros Hr.
  assert (Hm : countsNonNegative (drv m)).
  { intros name v Hv. apply (Hr name v Hv). }
  destruct q as [r|r|r|r|r|r|r|r]; simpl; try done.
  - unfold Create.
    destruct (decide (Name r = "")); [done|].
    destruct (Options r) as [opts|]; [|done].
    repeat match goal with
    | |- context [decide (index opts ?k = "")] =>
        destruct (decide (index opts k = "")); [done|]
    end.
    by apply countsNonNegative_insert.
  - unfold_driver. simpl.
    destruct (volumes (drv m) !! Name r) as [v|]; [|done].
    destruct (decide (connections v = 0)); [|done].
    case_sys; [done|].
    intros name' v'. simpl. rewrite lookup_delete.
    case_decide; [done|apply Hm].
  - unfold_driver. simpl.
    by destruct (volumes (drv m) !! Name r).
  - destruct (volumes (drv m) !! MountName r) as [v|] eqn:Hv.
    + destruct (decide (connections v > 0)) as [Hc|Hc].
      * rewrite (Mount_referenced m r v) by done.
        apply countsNonNegative_insert; [done|]. simpl.
        pose proof (Hr _ _ Hv) as Hv'.
        rewrite int_wrap_id; unfold int_ok, int_min, int_max in *; lia.
      * by rewrite (Mount_unreferenced_drv m r v).
    + by rewrite Mount_not_found.
  - unfold_driver. simpl.
    destruct (volumes (drv m) !! UnmountName r) as [v|] eqn:Hv; [|done].
    destruct (decide (connections v <= 1)); simpl.
    + case_sys; [done|]. by apply countsNonNegative_insert.
    + apply countsNonNegative_insert; [done|]. simpl.
      pose proof (Hr _ _ Hv) as Hv'.
      rewrite int_wrap_id; unfold int_ok, int_min, int_max in *; lia.
  - unfold_driver. simpl.
    by destruct (volumes (drv m) !! Name r).
Qed.

Lemma serveAll_unreferenced qs m :
  unreferenced (drv m) → unreferenced (drv (serveAll qs m)).
Proof.
  revert m. induction qs as [|q qs IH]; intros m Hm; simpl; [done|].
  apply IH. by apply serve_unreferenced.
Qed.

Lemma start_unreferenced root w : unreferenced (drv (start root w)).
Proof. intros name v. simpl. by rewrite lookup_empty. Qed.

(** C8: after any sequence of Create, Remove, Path, Mount, Unmount,
    Get, List and Capabilities requests served by a driver that started
    with an empty registry, whatever the system calls answered, the
    connection count of every registered volume is not negative. *)
Theorem connections_never_negative qs root w name v :
  volumes (drv (serveAll qs (start root w))) !! name = Some v →
  0 <= connections v.
Proof.
  intros Hv.
  pose proof (serveAll_unreferenced qs _ (start_unreferenced root w)) as H.
  rewrite (H name v Hv). lia.
Qed.

End Invariant.

(** ** The theorems at concrete requests *)

Lemma Mount_first_success_witness :
  (Mount mountVol (holding 0 calm)).1 = mountpointResponse "/tmp/vol" ∧
  calls (Mount mountVol (holding 0 calm)).2 = [BackendMount (volInfo 0)] ∧
  volumes (drv (Mount mountVol (holding 0 calm)).2) !! "vol"
    = Some (volInfo 0).
Proof.
  destruct (Mount_first_success (holding 0 calm) mountVol (volInfo 0)
              (withMountpoint calm) (withMountpoint calm))
    as (Hresp & Hcalls & _ & Hvol & _).
  - vm_compute. reflexivity.
  - reflexivity.
  - right. exists calm. split; reflexivity.
  - reflexivity.
  - repeat split; assumption.
Defined.

Lemma Mount_backend_failure_then_retry_witness :
  let m := holding 0 (failingOn "<mount here>") in
  Err (Mount mountVol m).1 = "exit status 1" ∧
  drv (Mount mountVol m).2 = drv m ∧
  calls (Mount mountVol (Mount mountVol m).2).2
    = [BackendMount (volInfo 0); BackendMount (volInfo 0)].
Proof.
  intros m.
  destruct (Mount_backend_failure_then_retry m mountVol (volInfo 0)
              (withMountpoint (failingOn "<mount here>"))
              (withMountpoint (failingOn "<mount here>")) "exit status 1")
    as (Herr & Hcalls & Hdrv & _ & Hagain).
  - vm_compute. reflexivity.
  - reflexivity.
  - right. exists (failingOn "<mount here>"). split; reflexivity.
  - reflexivity.
  - split; [exact Herr|]. split; [exact Hdrv|].
    rewrite (Hagain (Mount mountVol m).2
               (withMountpoint (failingOn "<mount here>"))).
    + rewrite Hcalls. reflexivity.
    + reflexivity.
    + left. reflexivity.
Defined.

Lemma Mount_error_keeps_registry_witness :
  drv (Mount mountVol (start "/tmp" calm)).2 = drv (start "/tmp" calm) ∧
  drv (Mount mountVol (holding 0 (failingOn "<mount here>"))).2
    = drv (holding 0 (failingOn "<mount here>")).
Proof.
  split.
  - apply (proj1 (Mount_error_keeps_registry (start "/tmp" calm) mountVol)).
    vm_compute. discriminate.
  - apply (proj1 (Mount_error_keeps_registry
                    (holding 0 (failingOn "<mount here>")) mountVol)).
    vm_compute. discriminate.
Defined.

Lemma Unmount_cases_witness :
  Err (Unmount unmountVol (start "/tmp" calm)).1 = "volume vol not found" ∧
  connections <$>
    volumes (drv (Unmount unmountVol (holding 1 calm)).2) !! "vol" = Some 0 ∧
  calls (Unmount unmountVol (holding 1 calm)).2 = [BackendUnmount "/tmp/vol"] ∧
  Err (Unmount unmountVol (holding 1 (failingOn "umount /tmp/vol"))).1
    = "exit status 1" ∧
  drv (Unmount unmountVol (holding 1 (failingOn "umount /tmp/vol"))).2
    = drv (holding 1 (failingOn "umount /tmp/vol")) ∧
  connections <$>
    volumes (drv (Unmount unmountVol (holding 3 calm)).2) !! "vol" = Some 2 ∧
  calls (Unmount unmountVol (holding 3 calm)).2 = [].
Proof.
  destruct (Unmount_cases (start "/tmp" calm) unmountVol) as [Hnone _].
  destruct (Hnone eq_refl) as [Herr _].
  destruct (Unmount_cases (holding 1 calm) unmountVol) as [_ Hone].
  destruct (Hone (volInfo 1) eq_refl) as (Hok & _ & _).
  specialize (Hok calm ltac:(simpl; lia) eq_refl).
  destruct (Unmount_cases (holding 1 (failingOn "umount /tmp/vol")) unmountVol)
    as [_ Hfail].
  destruct (Hfail (volInfo 1) eq_refl) as (_ & Hko & _).
  destruct (Hko "exit status 1" (failingOn "umount /tmp/vol")
              ltac:(simpl; lia) eq_refl) as [Hmsg Hsame].
  destruct (Unmount_cases (holding 3 calm) unmountVol) as [_ Hthree].
  destruct (Hthree (volInfo 3) eq_refl) as (_ & _ & Hdec).
  specialize (Hdec ltac:(simpl; lia) ltac:(unfold int_max; simpl; lia)).
  split; [exact Herr|].
  rewrite Hok, Hsame, Hdec. split; [reflexivity|].
  split; [reflexivity|]. split; [exact Hmsg|].
  repeat split; reflexivity.
Defined.

Lemma Remove_refused_witness :
  Err (Remove createVol (start "/tmp" calm)).1 = "volume vol not found" ∧
  Err (Remove createVol (holding 2 calm)).1
    = "volume vol is currently used by a container" ∧
  (Remove createVol (holding 2 calm)).2 = holding 2 calm.
Proof.
  destruct (Remove_refused (start "/tmp" calm) createVol) as [Hnone _].
  destruct (Remove_refused (holding 2 calm) createVol) as [_ Hused].
  destruct (Hnone eq_refl) as [Herr _].
  destruct (Hused (volInfo 2) eq_refl ltac:(simpl; lia)) as (Hmsg & Hsame & _).
  repeat split; assumption.
Defined.

Lemma Create_invalid_registers_nothing_witness :
  Err (Create createNoSecret (start "/tmp" calm)).1
    = "secret-key cannot be empty." ∧
  (Create createNoSecret (start "/tmp" calm)).2 = start "/tmp" calm.
Proof.
  destruct (Create_invalid_registers_nothing (start "/tmp" calm) createNoSecret)
    as (_ & _ & Hsame & _).
  - right. right. exists (delete "secret-key" playOptions), "secret-key".
    split; [reflexivity|]. split; [simpl; tauto|]. vm_compute. reflexivity.
  - split; [vm_compute; reflexivity | exact Hsame].
Defined.

Lemma Create_existing_overwrites_witness :
  let m1 := (Create createVol (start "/tmp" calm)).2 in
  (Create createOther m1).1 = Response0 ∧
  connections <$> volumes (drv (Create createOther m1).2) !! "vol" = Some 0.
Proof.
  intros m1.
  destruct (Create_existing_overwrites m1 createOther
              (<["endpoint" := "https://other.example:9000"]> playOptions)
              (volInfo 0))
    as (Hresp & _ & Hcount & _).
  - vm_compute. reflexivity.
  - discriminate.
  - reflexivity.
  - intros k Hk. simpl in Hk.
    destruct Hk as [<-|[<-|[<-|[<-|[]]]]]; vm_compute; discriminate.
  - split; assumption.
Defined.

Lemma connections_never_negative_witness :
  0 <= connections (volInfo 0).
Proof.
  apply (connections_never_negative
           [ReqCreate createVol; ReqMount mountVol; ReqUnmount unmountVol]
           "/tmp" calm "vol" (volInfo 0)).
  vm_compute. reflexivity.
Defined.

(** ** Reading the registry: Path, Get, List, Capabilities *)

Section ReadProperties.
Context {W : Type} `{!OS W}.
Implicit Types (m : machine W) (v : mountInfo) (w : W).

Lemma serve_readOnly q m : readOnly q = true → (serve q m).2 = m.
Proof.
  destruct q as [r|r|r|r|r|r|r|r]; try discriminate; intros _; simpl;
    unfold_driver; simpl; try done;
    by destruct (volumes (drv m) !! Name r).
Qed.

(** X1: a sequence of Path, Get, List and Capabilities requests, however
    long and whatever names it asks for, leaves the machine as it was:
    registry, file system and backend log. *)
Theorem reads_change_nothing qs m :
  forallb readOnly qs = true → serveAll qs m = m.
Proof.
  revert m. induction qs as [|q qs IH]; intros m Hqs; simpl in *; [done|].
  apply andb_prop in Hqs as [Hq Hqs].
  rewrite serve_readOnly by done. by apply IH.
Qed.

Lemma List_Volumes q m :
  Volumes (List q m).1 = (λ nv, listed nv.1 nv.2) <$> map_to_list (volumes (drv m)).
Proof. done. Qed.

(** X2: List answers without an error with one entry per registered
    volume: a name and a mount point are listed together exactly when the
    name is registered with that mount point, no name is listed twice,
    and there are as many entries as registrations. *)
Theorem List_is_the_registry q m :
  Err (List q m).1 = "" ∧
  (∀ name p,
     {| VolName := name; VolMountpoint := p |} ∈ Volumes (List q m).1 ↔
     ∃ v, volumes (drv m) !! name = Some v ∧ mountPoint v = p) ∧
  NoDup (VolName <$> Volumes (List q m).1) ∧
  length (Volumes (List q m).1) = size (volumes (drv m)).
Proof.
  rewrite List_Volumes. split; [done|]. split; [|split].
  - intros name p. rewrite list_elem_of_fmap. split.
    + intros ([name' v] & Heq & Hin). simpl in Heq.
      injection Heq as -> ->. apply elem_of_map_to_list in Hin. eauto.
    + intros (v & Hv & <-). exists (name, v). split; [done|].
      by apply elem_of_map_to_list.
  - rewrite <- list_fmap_compose.
    replace (VolName ∘ (λ nv : string * mountInfo, listed nv.1 nv.2))
      with (@fst string mountInfo) by done.
    apply NoDup_fst_map_to_list.
  - rewrite length_fmap. apply length_map_to_list.
Qed.

(** X3: Get and Path agree with List.  Get answers the volume [vol] for a
    name exactly when List has the entry [vol] under that name, and then
    Path answers that entry's mount point; Get and Path answer "volume
    ... not found" exactly when no entry of List has the name. *)
Theorem Get_Path_agree_with_List q m :
  (∀ vol, Volume (Get q m).1 = Some vol ↔
          vol ∈ Volumes (List q m).1 ∧ VolName vol = Name q) ∧
  (∀ vol, Volume (Get q m).1 = Some vol →
          Path q m = (mountpointResponse (VolMountpoint vol), m)) ∧
  (Name q ∉ VolName <$> Volumes (List q m).1 ↔
   Get q m = responseError ("volume " +:+ Name q +:+ " not found") m ∧
   Path q m = responseError ("volume " +:+ Name q +:+ " not found") m).
Proof.
  pose proof (List_is_registry_aux := List_Volumes q m).
  split; [|split].
  - intros [name p]. rewrite List_is_registry_aux, list_elem_of_fmap.
    unfold Get, bind, getVolumes, responseError, errorResponse, ret. simpl.
    destruct (volumes (drv m) !! Name q) as [v|] eqn:Hv; simpl.
    + split.
      * intros [= <- <-]. split; [|done]. exists (Name q, v).
        split; [done|]. by apply elem_of_map_to_list.
      * intros [([n v'] & Heq & Hin) Hname]. simpl in *.
        injection Heq as -> ->. subst n.
        apply elem_of_map_to_list in Hin. congruence.
    + split; [done|].
      intros [([n v'] & Heq & Hin) Hname]. simpl in *.
      injection Heq as -> ->. subst n.
      apply elem_of_map_to_list in Hin. congruence.
  - intros vol. unfold Get, Path, bind, getVolumes, responseError,
      errorResponse, ret. simpl.
    destruct (volumes (drv m) !! Name q) as [v|]; simpl; [|done].
    by intros [= <-].
  - rewrite List_is_registry_aux, list_elem_of_fmap.
    unfold Get, Path, bind, getVolumes, responseError, errorResponse, ret.
    simpl. destruct (volumes (drv m) !! Name q) as [v|] eqn:Hv; simpl.
    + split; [|by intros [[=] _]].
      intros Hno. exfalso. apply Hno. exists (listed (Name q) v).
      split; [done|]. apply list_elem_of_fmap. exists (Name q, v).
      split; [done|]. by apply elem_of_map_to_list.
    + split; [done|]. intros _ (vol & Hname & Hin).
      apply list_elem_of_fmap in Hin as ([n v'] & -> & Hin). simpl in *.
      apply elem_of_map_to_list in Hin. congruence.
Qed.

End ReadProperties.

(** ** Create and Remove, and what follows them *)

Lemma nonEmpty_true (s : string) : nonEmpty s = true ↔ s ≠ "".
Proof.
  unfold nonEmpty. rewrite negb_true_iff. apply String.eqb_neq.
Qed.

Lemma validCreate_true (r : volume_Request) :
  validCreate r = true ↔
  Name r ≠ "" ∧ ∃ opts, Options r = Some opts ∧
                        ∀ k, In k credentialOptions → index opts k ≠ "".
Proof.
  unfold validCreate. rewrite andb_true_iff, nonEmpty_true.
  destruct (Options r) as [opts|].
  - rewrite forallb_forall. split.
    + intros [Hn Hall]. split; [done|]. exists opts. split; [done|].
      intros k Hk. apply nonEmpty_true. by apply Hall.
    + intros [Hn (opts' & [= <-] & Hall)]. split; [done|].
      intros k Hk. apply nonEmpty_true. by apply Hall.
  - split; [by intros [_ ?]|]. by intros [_ (? & ? & _)].
Qed.

Section CreateRemoveProperties.
Context {W : Type} `{!OS W}.
Implicit Types (m : machine W) (v : mountInfo) (w : W).

Lemma Create_validCreate m r :
  validCreate r = true →
  ∃ opts, Options r = Some opts ∧
    Create r m =
      (Response0,
       Machine (withVolume (drv m) (Name r)
                  (createdInfo (mountRoot (drv m)) (Name r) opts))
               (world m) (calls m)).
Proof.
  intros (Hn & opts & Hopts & Hall)%validCreate_true.
  exists opts. split; [done|]. by apply Create_valid.
Qed.

Lemma Create_not_validCreate m r :
  validCreate r = false →
  ∃ e, e ≠ "" ∧ Create r m = errorResponse e m.
Proof.
  intros Hbad. unfold Create.
  destruct (decide (Name r = "")) as [|Hn];
    [eexists; split; [|reflexivity]; discriminate|].
  destruct (Options r) as [opts|] eqn:Hopts;
    [|eexists; split; [|reflexivity]; discriminate].
  repeat match goal with
  | |- context [decide (index opts ?k = "")] =>
      destruct (decide (index opts k = ""));
      [eexists; split; [|reflexivity]; discriminate|]
  end.
  exfalso. assert (validCreate r = true); [|congruence].
  apply validCreate_true. split; [done|]. exists opts. split; [done|].
  intros k Hk. simpl in Hk. intuition congruence.
Qed.

Lemma Create_succeeds_calls m r : calls (Create r m).2 = calls m.
Proof.
  destruct (validCreate r) eqn:Hvalid.
  - by destruct (Create_validCreate m r Hvalid) as (opts & _ & ->).
  - by destruct (Create_not_validCreate m r Hvalid) as (e & _ & ->).
Qed.

Lemma Create_succeeds_root m r :
  mountRoot (drv (Create r m).2) = mountRoot (drv m).
Proof.
  destruct (validCreate r) eqn:Hvalid.
  - by destruct (Create_validCreate m r Hvalid) as (opts & _ & ->).
  - by destruct (Create_not_validCreate m r Hvalid) as (e & _ & ->).
Qed.

(** X4: Create succeeds exactly on the requests that pass its input
    checks (a name, and the four options non-empty); and whether it
    succeeds or not it makes no system call and no backend call, and
    keeps the mount root. *)
Theorem Create_succeeds_iff_valid m r :
  (Err (Create r m).1 = "" ↔ validCreate r = true) ∧
  world (Create r m).2 = world m ∧
  calls (Create r m).2 = calls m ∧
  mountRoot (drv (Create r m).2) = mountRoot (drv m).
Proof.
  destruct (validCreate r) eqn:Hvalid.
  - destruct (Create_validCreate m r Hvalid) as (opts & _ & ->). done.
  - destruct (Create_not_validCreate m r Hvalid) as (e & He & ->). simpl.
    repeat split; done.
Qed.

(** X5: after a Create that passes the input checks, Path of that name
    answers the mount root joined with the name, Get answers the volume
    of that name and mount point, and neither changes the machine. *)
Theorem Create_then_Path_Get m r q :
  validCreate r = true →
  Name q = Name r →
  let m' := (Create r m).2 in
  let p := filepath_Join (mountRoot (drv m)) (Name r) in
  Path q m' = (mountpointResponse p, m') ∧
  Volume (Get q m').1 = Some {| VolName := Name r; VolMountpoint := p |} ∧
  Err (Get q m').1 = "" ∧
  (Get q m').2 = m'.
Proof.
  intros Hvalid Hq.
  destruct (Create_validCreate m r Hvalid) as (opts & _ & ->). simpl.
  unfold Path, Get, bind, getVolumes, ret. simpl.
  rewrite Hq, lookup_insert_eq. done.
Qed.

(** X6: a Create that passes the input checks under a name that is not
    registered adds one entry to the listing, the name with the mount
    root joined with the name, and keeps the entries there were. *)
Theorem Create_fresh_extends_List m r q :
  validCreate r = true →
  volumes (drv m) !! Name r = None →
  Volumes (List q (Create r m).2).1 ≡ₚ
    {| VolName := Name r;
       VolMountpoint := filepath_Join (mountRoot (drv m)) (Name r) |}
    :: Volumes (List q m).1.
Proof.
  intros Hvalid Hfresh.
  destruct (Create_validCreate m r Hvalid) as (opts & _ & ->).
  rewrite !List_Volumes. simpl.
  rewrite map_to_list_insert by done. done.
Qed.

Lemma unregistered_not_found q m :
  needsVolume q = true →
  volumes (drv m) !! requestName q = None →
  serve q m = responseError ("volume " +:+ requestName q +:+ " not found") m.
Proof.
  destruct q as [r|r|r|r|r|r|r|r]; try discriminate; intros _ Hnone;
    simpl in *; unfold_driver; simpl; by rewrite Hnone.
Qed.

Lemma Remove_unreferenced_step m r v :
  volumes (drv m) !! Name r = Some v →
  connections v = 0 →
  Remove r m =
    let '(err, w') := os_RemoveAll (mountPoint v) (world m) in
    (match err with
     | Some msg => (responseError msg m).1
     | None => Response0
     end,
     match err with
     | Some _ => Machine (drv m) w' (calls m)
     | None => Machine (withoutVolume (drv m) (Name r)) w' (calls m)
     end).
Proof.
  intros Hv Hc. unfold_driver. simpl. rewrite Hv.
  destruct (decide (connections v = 0)); [|done]. by case_sys.
Qed.

(** X7: Remove of a registered volume with no connection removes the
    mount path's directory tree.  When that succeeds the name is
    unregistered, the other volumes and the backend log are kept, and
    every later Remove, Path, Mount, Unmount and Get of the name answers
    "volume ... not found"; when it fails with text [msg] the answer
    carries [msg] and the volume stays registered as it was. *)
Theorem Remove_unreferenced m r v :
  volumes (drv m) !! Name r = Some v →
  connections v = 0 →
  (∀ w', os_RemoveAll (mountPoint v) (world m) = (None, w') →
     Remove r m =
       (Response0, Machine (withoutVolume (drv m) (Name r)) w' (calls m)) ∧
     ∀ q, needsVolume q = true → requestName q = Name r →
       Err (serve q (Remove r m).2).1 = "volume " +:+ Name r +:+ " not found") ∧
  (∀ msg w', os_RemoveAll (mountPoint v) (world m) = (Some msg, w') →
     Err (Remove r m).1 = msg ∧
     (Remove r m).2 = Machine (drv m) w' (calls m)).
Proof.
  intros Hv Hc. pose proof (Remove_unreferenced_step m r v Hv Hc) as Hstep.
  split.
  - intros w' Hrm. rewrite Hstep, Hrm. split; [done|].
    intros q Hq Hname. rewrite unregistered_not_found; [by rewrite Hname|done|].
    simpl. rewrite Hname. apply lookup_delete_eq.
  - intros msg w' Hrm. by rewrite Hstep, Hrm.
Qed.

(** X8: Create under a name that is not registered, then Remove of that
    name with the directory removal succeeding, gives back the driver
    there was before the two, and has called no backend. *)
Theorem Create_then_Remove m r w' :
  validCreate r = true →
  volumes (drv m) !! Name r = None →
  os_RemoveAll (filepath_Join (mountRoot (drv m)) (Name r)) (world m)
    = (None, w') →
  Remove r (Create r m).2 = (Response0, Machine (drv m) w' (calls m)).
Proof.
  intros Hvalid Hfresh Hrm.
  destruct (Create_validCreate m r Hvalid) as (opts & _ & ->). simpl.
  unfold_driver. simpl. rewrite lookup_insert_eq. simpl.
  rewrite Hrm. simpl. rewrite delete_insert_id by done.
  by destruct m as [[root vols] w calls0].
Qed.

End CreateRemoveProperties.

(** ** Mount and Unmount beyond the first and the last connection *)

Section CountingProperties.
Context {W : Type} `{!OS W}.
Implicit Types (m : machine W) (v : mountInfo) (w : W).

(** X9: Mount of a volume that has a connection returns the mount path
    and counts one more connection, with no system call and no backend
    call; at the largest [int] the count wraps to the smallest. *)
Theorem Mount_referenced_counts m r v :
  volumes (drv m) !! MountName r = Some v →
  connections v > 0 →
  (Mount r m).1 = mountpointResponse (mountPoint v) ∧
  world (Mount r m).2 = world m ∧
  calls (Mount r m).2 = calls m ∧
  (connections v < int_max →
     drv (Mount r m).2 =
       withVolume (drv m) (MountName r)
         (withConnections v (connections v + 1))) ∧
  (connections v = int_max →
     drv (Mount r m).2 =
       withVolume (drv m) (MountName r) (withConnections v int_min)).
Proof.
  intros Hv Hc. rewrite (Mount_referenced m r v) by done. simpl.
  repeat split.
  - intros Hmax. unfold withVolume, withConnections.
    rewrite int_wrap_id; [done|]. unfold int_ok, int_min, int_max in *. lia.
  - intros ->. done.
Qed.

(** X10: on a volume that has a connection, and a count below the
    largest [int], a Mount followed by an Unmount of the same name gives
    back the machine there was: the count, the file system and the
    backend log, with no backend call in between. *)
Theorem Mount_then_Unmount_referenced m r u v :
  volumes (drv m) !! MountName r = Some v →
  0 < connections v < int_max →
  UnmountName u = MountName r →
  Unmount u (Mount r m).2 = (Response0, m).
Proof.
  intros Hv Hc Hname. rewrite (Mount_referenced m r v) by (done || lia).
  simpl.
  unfold_driver. simpl. rewrite Hname, lookup_insert_eq. simpl.
  rewrite (int_wrap_id (connections v + 1))
    by (unfold int_ok, int_min, int_max in *; lia).
  destruct (decide (connections v + 1 <= 1)); [lia|]. simpl.
  rewrite insert_insert_eq.
  rewrite int_wrap_id by (unfold int_ok, int_min, int_max in *; lia).
  replace (connections v + 1 - 1) with (connections v) by lia.
  destruct v as [cfg p c]. simpl in *. rewrite insert_id by done.
  by destruct m as [[root vols] w calls0].
Qed.

(** X11: Mount of a volume with no connection calls no backend and keeps
    the registry when the mount path cannot be made ready: when the path
    exists and is not a directory it answers "... already exist and it's
    not a directory" without trying to create it, when [os.Lstat] fails
    otherwise it answers that error's text, and when the path is missing
    and [os.MkdirAll] fails it answers that error's text. *)
Theorem Mount_unprepared m r v :
  volumes (drv m) !! MountName r = Some v →
  ¬ connections v > 0 →
  (∀ w1, os_Lstat (mountPoint v) (world m) = (FileInfo false, w1) →
     Err (Mount r m).1
       = mountPoint v +:+ " already exist and it's not a directory" ∧
     (Mount r m).2 = Machine (drv m) w1 (calls m)) ∧
  (∀ msg w1, os_Lstat (mountPoint v) (world m) = (LstatError msg, w1) →
     Err (Mount r m).1 = msg ∧
     (Mount r m).2 = Machine (drv m) w1 (calls m)) ∧
  (∀ msg w0 w1,
     os_Lstat (mountPoint v) (world m) = (LstatNotExist, w0) →
     os_MkdirAll (mountPoint v) w0 = (Some msg, w1) →
     Err (Mount r m).1 = msg ∧
     (Mount r m).2 = Machine (drv m) w1 (calls m)).
Proof.
  intros Hv Hc.
  split; [|split]; intros; unfold_driver; simpl; rewrite Hv;
    (destruct (decide (connections v > 0)); [done|]);
    repeat match goal with
    | H : _ = (_, _) |- _ => rewrite H; simpl; clear H
    end; done.
Qed.

(** X12: an Unmount of a volume with at most one connection whose
    backend unmount fails with text [msg] answers [msg] and keeps the
    registry, and a later Unmount on that registry calls the backend
    unmount on the same path again. *)
Theorem Unmount_backend_failure_then_retry m r v msg w' :
  volumes (drv m) !! UnmountName r = Some v →
  connections v <= 1 →
  exec_sh ("umount " +:+ mountPoint v) (world m) = (Some msg, w') →
  Err (Unmount r m).1 = msg ∧
  drv (Unmount r m).2 = drv m ∧
  ∀ m', drv m' = drv (Unmount r m).2 →
        calls (Unmount r m').2 = calls m' ++ [BackendUnmount (mountPoint v)].
Proof.
  intros Hv Hc Hsh.
  assert (Hcalls : ∀ m', volumes (drv m') !! UnmountName r = Some v →
            calls (Unmount r m').2 = calls m' ++ [BackendUnmount (mountPoint v)]).
  { intros m' Hv'. unfold_driver. simpl. rewrite Hv'.
    destruct (decide (connections v <= 1)); [|done]. simpl. by case_sys. }
  assert (Hdrv : drv (Unmount r m).2 = drv m).
  { unfold_driver. simpl. rewrite Hv.
    destruct (decide (connections v <= 1)); [|done]. simpl. by rewrite Hsh. }
  split; [|split; [done|]].
  - unfold_driver. simpl. rewrite Hv.
    destruct (decide (connections v <= 1)); [|done]. simpl. by rewrite Hsh.
  - intros m' Hm'. apply Hcalls. by rewrite Hm', Hdrv.
Qed.

End CountingProperties.

(** ** What one request, and a sequence of them, can and cannot do *)

Section RequestProperties.
Context {W : Type} `{!OS W}.
Implicit Types (m : machine W) (v : mountInfo) (w : W).

Lemma serve_calls_cases q m :
  match q with
  | ReqMount r =>
      calls (serve q m).2 = calls m ∨
      ∃ v, volumes (drv m) !! MountName r = Some v ∧
           calls (serve q m).2 = calls m ++ [BackendMount v]
  | ReqUnmount r =>
      calls (serve q m).2 = calls m ∨
      ∃ v, volumes (drv m) !! UnmountName r = Some v ∧
           calls (serve q m).2 = calls m ++ [BackendUnmount (mountPoint v)]
  | _ => calls (serve q m).2 = calls m
  end.
Proof.
  destruct q as [r|r|r|r|r|r|r|r]; simpl.
  - apply Create_succeeds_calls.
  - unfold_driver. simpl.
    destruct (volumes (drv m) !! Name r) as [v|]; [|done].
    destruct (decide (connections v = 0)); [|done]. by case_sys.
  - by rewrite (serve_readOnly (ReqPath r) m eq_refl : (serve (ReqPath r) m).2 = m).
  - unfold_driver. simpl.
    destruct (volumes (drv m) !! MountName r) as [v|]; [|by left].
    destruct (decide (connections v > 0)); [by left|].
    repeat (case_sys; try (by left); try (by right; eexists)).
  - unfold_driver. simpl.
    destruct (volumes (drv m) !! UnmountName r) as [v|]; [|by left].
    destruct (decide (connections v <= 1)); [|by left]. simpl.
    case_sys; right; by eexists.
  - by rewrite (serve_readOnly (ReqGet r) m eq_refl : (serve (ReqGet r) m).2 = m).
  - done.
  - done.
Qed.

(** X13: one request makes at most one backend call, appended to the
    log: a Mount may call the backend mount, and then for the volume
    registered under its name; an Unmount may call the backend unmount,
    and then on the mount path of the volume registered under its name;
    no other request calls the backend. *)
Theorem serve_backend_calls q m :
  match q with
  | ReqMount r =>
      calls (serve q m).2 = calls m ∨
      ∃ v, volumes (drv m) !! MountName r = Some v ∧
           calls (serve q m).2 = calls m ++ [BackendMount v]
  | ReqUnmount r =>
      calls (serve q m).2 = calls m ∨
      ∃ v, volumes (drv m) !! UnmountName r = Some v ∧
           calls (serve q m).2 = calls m ++ [BackendUnmount (mountPoint v)]
  | _ => calls (serve q m).2 = calls m
  end.
Proof. apply serve_calls_cases. Qed.

Lemma serve_calls_grow q m :
  ∃ cs, calls (serve q m).2 = calls m ++ cs ∧
        (length cs ≤ if usesBackend q then 1 else 0)%nat.
Proof.
  pose proof (serve_calls_cases q m) as H.
  destruct q as [r|r|r|r|r|r|r|r]; simpl in *;
    try (exists []; rewrite app_nil_r; split; [done|simpl; lia]).
  - destruct H as [H|(v & _ & H)];
      [exists []; rewrite app_nil_r | eexists; split; [exact H|]];
      try split; try done; simpl; lia.
  - destruct H as [H|(v & _ & H)];
      [exists []; rewrite app_nil_r | eexists; split; [exact H|]];
      try split; try done; simpl; lia.
Qed.

(** X19: over a sequence of requests the backend log only grows at its
    end, by at most one call for each Mount and Unmount request of the
    sequence. *)
Theorem serveAll_backend_calls qs m :
  calls m `prefix_of` calls (serveAll qs m) ∧
  (length (calls (serveAll qs m))
     ≤ length (calls m) + length (filter (λ q, usesBackend q = true) qs))%nat.
Proof.
  revert m. induction qs as [|q qs IH]; intros m; simpl.
  - split; [done|lia].
  - destruct (IH (serve q m).2) as [Hpre Hlen].
    destruct (serve_calls_grow q m) as (cs & Hcs & Hn).
    rewrite Hcs in Hpre, Hlen. split.
    + etrans; [|exact Hpre]. by apply prefix_app_r.
    + rewrite length_app in Hlen. rewrite filter_cons.
      destruct (usesBackend q); case_decide; simpl in *; try done; lia.
Qed.

Lemma serve_frame q m other :
  other ≠ requestName q →
  volumes (drv (serve q m).2) !! other = volumes (drv m) !! other.
Proof.
  intros Hne. destruct q as [r|r|r|r|r|r|r|r]; simpl in *.
  - destruct (validCreate r) eqn:Hvalid.
    + destruct (Create_validCreate m r Hvalid) as (opts & _ & ->). simpl.
      by rewrite lookup_insert_ne.
    + by destruct (Create_not_validCreate m r Hvalid) as (e & _ & ->).
  - unfold_driver. simpl.
    destruct (volumes (drv m) !! Name r) as [v|]; [|done].
    destruct (decide (connections v = 0)); [|done].
    case_sys; [done|]. by rewrite lookup_delete_ne.
  - by rewrite (serve_readOnly (ReqPath r) m eq_refl : (serve (ReqPath r) m).2 = m).
  - destruct (volumes (drv m) !! MountName r) as [v|] eqn:Hv.
    + destruct (decide (connections v > 0)).
      * rewrite (Mount_referenced m r v) by done. simpl.
        by rewrite lookup_insert_ne.
      * by rewrite (Mount_unreferenced_drv m r v).
    + by rewrite Mount_not_found.
  - unfold_driver. simpl.
    destruct (volumes (drv m) !! UnmountName r) as [v|]; [|done].
    destruct (decide (connections v <= 1)); simpl.
    + case_sys; [done|]. by rewrite lookup_insert_ne.
    + by rewrite lookup_insert_ne.
  - by rewrite (serve_readOnly (ReqGet r) m eq_refl : (serve (ReqGet r) m).2 = m).
  - done.
  - done.
Qed.

Lemma serve_mountRoot q m : mountRoot (drv (serve q m).2) = mountRoot (drv m).
Proof.
  destruct q as [r|r|r|r|r|r|r|r]; simpl.
  - apply Create_succeeds_root.
  - unfold_driver. simpl.
    destruct (volumes (drv m) !! Name r) as [v|]; [|done].
    destruct (decide (connections v = 0)); [|done]. by case_sys.
  - by rewrite (serve_readOnly (ReqPath r) m eq_refl : (serve (ReqPath r) m).2 = m).
  - destruct (volumes (drv m) !! MountName r) as [v|] eqn:Hv.
    + destruct (decide (connections v > 0)).
      * by rewrite (Mount_referenced m r v).
      * by rewrite (Mount_unreferenced_drv m r v).
    + by rewrite Mount_not_found.
  - unfold_driver. simpl.
    destruct (volumes (drv m) !! UnmountName r) as [v|]; [|done].
    destruct (decide (connections v <= 1)); simpl; [|done]. by case_sys.
  - by rewrite (serve_readOnly (ReqGet r) m eq_refl : (serve (ReqGet r) m).2 = m).
  - done.
  - done.
Qed.

(** X14: a request changes no registration but the one of the name it
    carries: every other name is registered after it as it was before,
    or not registered as before; and no request changes the mount
    root. *)
Theorem serve_other_volumes q m other :
  other ≠ requestName q →
  volumes (drv (serve q m).2) !! other = volumes (drv m) !! other ∧
  mountRoot (drv (serve q m).2) = mountRoot (drv m).
Proof.
  intros Hne. split; [by apply serve_frame|apply serve_mountRoot].
Qed.

Lemma serve_keeps_unregistered q m name :
  creates name q = false →
  volumes (drv m) !! name = None →
  volumes (drv (serve q m).2) !! name = None.
Proof.
  intros Hq Hnone.
  destruct (decide (name = requestName q)) as [->|Hne];
    [|by rewrite serve_frame].
  destruct (needsVolume q) eqn:Hneeds.
  - by rewrite unregistered_not_found.
  - destruct q as [r|r|r|r|r|r|r|r]; try discriminate; simpl in *.
    + by rewrite String.eqb_refl in Hq.
    + done.
    + done.
Qed.

(** X15: a name that no Create of the sequence carries is not registered
    after the sequence, served from the driver's start, and Remove, Path,
    Mount, Unmount and Get of it then answer "volume ... not found" and
    change nothing, whatever was done to other names. *)
Theorem never_created_not_found qs root w name :
  existsb (creates name) qs = false →
  let m := serveAll qs (start root w) in
  volumes (drv m) !! name = None ∧
  ∀ q, needsVolume q = true → requestName q = name →
       serve q m = responseError ("volume " +:+ name +:+ " not found") m.
Proof.
  intros Hqs.
  assert (Hnone : ∀ m0, volumes (drv m0) !! name = None →
                        volumes (drv (serveAll qs m0)) !! name = None).
  { induction qs as [|q qs IH]; intros m0 Hm0; simpl in *; [done|].
    apply orb_false_elim in Hqs as [Hq Hqs].
    apply (IH Hqs). by apply serve_keeps_unregistered. }
  specialize (Hnone (start root w) (lookup_empty _)).
  split; [done|].
  intros q Hq <-. by apply unregistered_not_found.
Qed.

End RequestProperties.

(** ** What every registration of a running driver satisfies *)

Section RegistryInvariant.
Context {W : Type} `{!OS W}.
Implicit Types (m : machine W) (v : mountInfo) (w : W).

Variable root : string.
Variable P : string → mountInfo → Prop.

(** [P] holds of what Create stores, and does not depend on the count. *)
Hypothesis P_created :
  ∀ name opts,
    name ≠ "" →
    (∀ k, In k credentialOptions → index opts k ≠ "") →
    P name (createdInfo root name opts).
Hypothesis P_counted :
  ∀ name v n, P name v → P name (withConnections v n).

Lemma serve_registry_invariant q m :
  mountRoot (drv m) = root →
  (∀ name v, volumes (drv m) !! name = Some v → P name v) →
  ∀ name v, volumes (drv (serve q m).2) !! name = Some v → P name v.
Proof.
  intros Hroot Hm name v'.
  destruct q as [r|r|r|r|r|r|r|r]; simpl.
  - destruct (validCreate r) eqn:Hvalid.
    + destruct (Create_validCreate m r Hvalid) as (opts & Hopts & ->).
      apply validCreate_true in Hvalid as (Hn & opts' & Hopts' & Hall).
      assert (opts' = opts) as -> by congruence.
      simpl. rewrite lookup_insert. case_decide; [|apply Hm].
      intros [= <-]. subst name. rewrite Hroot. by apply P_created.
    + destruct (Create_not_validCreate m r Hvalid) as (e & _ & ->).
      apply Hm.
  - unfold_driver. simpl.
    destruct (volumes (drv m) !! Name r) as [v|]; [|apply Hm].
    destruct (decide (connections v = 0)); [|apply Hm].
    case_sys; [apply Hm|]. rewrite lookup_delete.
    case_decide; [done|apply Hm].
  - rewrite (serve_readOnly (ReqPath r) m eq_refl : (serve (ReqPath r) m).2 = m).
    apply Hm.
  - destruct (volumes (drv m) !! MountName r) as [v|] eqn:Hv.
    + destruct (decide (connections v > 0)).
      * rewrite (Mount_referenced m r v) by done. simpl.
        rewrite lookup_insert. case_decide; [|apply Hm].
        intros [= <-]. subst name.
        apply (P_counted _ v (int_wrap (connections v + 1))). by apply Hm.
      * rewrite (Mount_unreferenced_drv m r v) by done. apply Hm.
    + rewrite Mount_not_found by done. apply Hm.
  - unfold_driver. simpl.
    destruct (volumes (drv m) !! UnmountName r) as [v|] eqn:Hv; [|apply Hm].
    destruct (decide (connections v <= 1)); simpl.
    + case_sys; [apply Hm|]. rewrite lookup_insert.
      case_decide; [|apply Hm]. intros [= <-]. subst name.
      apply (P_counted _ v 0). by apply Hm.
    + rewrite lookup_insert. case_decide; [|apply Hm].
      intros [= <-]. subst name.
      apply (P_counted _ v (int_wrap (connections v - 1))). by apply Hm.
  - rewrite (serve_readOnly (ReqGet r) m eq_refl : (serve (ReqGet r) m).2 = m).
    apply Hm.
  - apply Hm.
  - apply Hm.
Qed.

Lemma serveAll_registry_invariant qs w name v :
  volumes (drv (serveAll qs (start root w))) !! name = Some v → P name v.
Proof.
  assert (Hgen : ∀ m,
    mountRoot (drv m) = root →
    (∀ name v, volumes (drv m) !! name = Some v → P name v) →
    ∀ name v, volumes (drv (serveAll qs m)) !! name = Some v → P name v).
  { induction qs as [|q qs IH]; intros m Hroot Hm; simpl; [done|].
    apply IH.
    - by rewrite serve_mountRoot.
    - by apply serve_registry_invariant. }
  apply Hgen; [done|]. intros name' v'. simpl. by rewrite lookup_empty.
Qed.

End RegistryInvariant.

Section ReachableProperties.
Context {W : Type} `{!OS W}.
Implicit Types (m : machine W) (v : mountInfo) (w : W).

(** X16: after any sequence of requests served from the driver's start,
    the mount point stored for a registered name is the mount root
    joined with that name: it is set by Create and changed by no other
    request. *)
Theorem reachable_mountPoint qs root w name v :
  volumes (drv (serveAll qs (start root w))) !! name = Some v →
  mountPoint v = filepath_Join root name.
Proof.
  apply (serveAll_registry_invariant root
           (λ name v, mountPoint v = filepath_Join root name)); done.
Qed.

(** X17: after any sequence of requests served from the driver's start,
    every registered name is non-empty and is registered with an
    endpoint, a bucket, an access key and a secret key that are all
    non-empty. *)
Theorem reachable_registration_complete qs root w name v :
  volumes (drv (serveAll qs (start root w))) !! name = Some v →
  name ≠ "" ∧
  endpoint (serverconfig v) ≠ "" ∧ bucket (serverconfig v) ≠ "" ∧
  accessKey (serverconfig v) ≠ "" ∧ secretKey (serverconfig v) ≠ "".
Proof.
  apply (serveAll_registry_invariant root
           (λ name v, name ≠ "" ∧
              endpoint (serverconfig v) ≠ "" ∧ bucket (serverconfig v) ≠ "" ∧
              accessKey (serverconfig v) ≠ "" ∧ secretKey (serverconfig v) ≠ "")).
  - intros name' opts Hn Hall. simpl.
    repeat split; try done; apply Hall; simpl; tauto.
  - done.
Qed.


End ReachableProperties.

(** ** The further theorems at concrete requests *)

Lemma reads_change_nothing_witness :
  serveAll [ReqPath createVol; ReqGet createVol; ReqList createVol;
            ReqCapabilities createVol] (holding 0 calm)
  = holding 0 calm.
Proof. apply reads_change_nothing. reflexivity. Defined.

Lemma Create_then_Path_Get_witness :
  Path createVol (Create createVol (start "/tmp" calm)).2
    = (mountpointResponse "/tmp/vol", (Create createVol (start "/tmp" calm)).2) ∧
  Volume (Get createVol (Create createVol (start "/tmp" calm)).2).1
    = Some {| VolName := "vol"; VolMountpoint := "/tmp/vol" |}.
Proof.
  destruct (Create_then_Path_Get (start "/tmp" calm) createVol createVol)
    as (Hpath & Hget & _).
  - vm_compute. reflexivity.
  - reflexivity.
  - split; [exact Hpath | exact Hget].
Defined.

Lemma Create_fresh_extends_List_witness :
  Volumes (List createVol (Create createVol (start "/tmp" calm)).2).1 ≡ₚ
    [{| VolName := "vol"; VolMountpoint := "/tmp/vol" |}].
Proof.
  exact (Create_fresh_extends_List (start "/tmp" calm) createVol createVol
           eq_refl eq_refl).
Defined.

Lemma Remove_unreferenced_witness :
  volumes (drv (Remove createVol (holding 0 calm)).2) !! "vol" = None ∧
  Err (Mount mountVol (Remove createVol (holding 0 calm)).2).1
    = "volume vol not found" ∧
  Err (Remove createVol (holding 0 frozen)).1
    = "unlinkat /tmp/vol: read-only file system" ∧
  (Remove createVol (holding 0 frozen)).2 = holding 0 frozen.
Proof.
  destruct (Remove_unreferenced (holding 0 calm) createVol (volInfo 0))
    as [Hok _]; [vm_compute; reflexivity | reflexivity |].
  destruct (Hok calm eq_refl) as [Hgone Hlater].
  destruct (Remove_unreferenced (holding 0 frozen) createVol (volInfo 0))
    as [_ Hko]; [vm_compute; reflexivity | reflexivity |].
  destruct (Hko "unlinkat /tmp/vol: read-only file system" frozen eq_refl)
    as [Hmsg Hsame].
  split; [rewrite Hgone; vm_compute; reflexivity|].
  split; [exact (Hlater (ReqMount mountVol) eq_refl eq_refl)|].
  split; [exact Hmsg | exact Hsame].
Defined.

Lemma Create_then_Remove_witness :
  Remove createVol (Create createVol (start "/tmp" calm)).2
  = (Response0, start "/tmp" calm).
Proof.
  apply (Create_then_Remove (start "/tmp" calm) createVol calm).
  - vm_compute. reflexivity.
  - vm_compute. reflexivity.
  - reflexivity.
Defined.

Lemma Mount_referenced_counts_witness :
  connections <$> volumes (drv (Mount mountVol (holding 2 calm)).2) !! "vol"
    = Some 3 ∧
  calls (Mount mountVol (holding 2 calm)).2 = [] ∧
  connections <$>
    volumes (drv (Mount mountVol (holding int_max calm)).2) !! "vol"
    = Some int_min.
Proof.
  destruct (Mount_referenced_counts (holding 2 calm) mountVol (volInfo 2))
    as (_ & _ & Hcalls & Hup & _);
    [vm_compute; reflexivity | simpl; lia |].
  destruct (Mount_referenced_counts (holding int_max calm) mountVol
              (volInfo int_max))
    as (_ & _ & _ & _ & Hwrap);
    [vm_compute; reflexivity | vm_compute; reflexivity |].
  rewrite Hup by (vm_compute; reflexivity).
  rewrite Hwrap by reflexivity.
  split; [vm_compute; reflexivity|].
  split; [exact Hcalls | vm_compute; reflexivity].
Defined.

Lemma Mount_then_Unmount_referenced_witness :
  Unmount unmountVol (Mount mountVol (holding 2 calm)).2
  = (Response0, holding 2 calm).
Proof.
  apply (Mount_then_Unmount_referenced (holding 2 calm) mountVol unmountVol
           (volInfo 2)).
  - vm_compute. reflexivity.
  - vm_compute. split; reflexivity.
  - reflexivity.
Defined.

Lemma Mount_unprepared_witness :
  Err (Mount mountVol (holding 0 blocked)).1
    = "/tmp/vol already exist and it's not a directory" ∧
  (Mount mountVol (holding 0 blocked)).2 = holding 0 blocked ∧
  Err (Mount mountVol denied).1 = "lstat /tmp/vol: permission denied" ∧
  (Mount mountVol denied).2 = denied ∧
  Err (Mount mountVol (holding 0 frozen)).1
    = "mkdir /tmp/vol: read-only file system" ∧
  (Mount mountVol (holding 0 frozen)).2 = holding 0 frozen.
Proof.
  destruct (Mount_unprepared (holding 0 blocked) mountVol (volInfo 0))
    as (Hfile & _ & _); [vm_compute; reflexivity | simpl; lia |].
  destruct (Mount_unprepared denied mountVol (volInfo 0))
    as (_ & Hstat & _); [vm_compute; reflexivity | simpl; lia |].
  destruct (Mount_unprepared (holding 0 frozen) mountVol (volInfo 0))
    as (_ & _ & Hmk); [vm_compute; reflexivity | simpl; lia |].
  destruct (Hfile blocked eq_refl) as [H1 H2].
  destruct (Hstat "lstat /tmp/vol: permission denied" tt eq_refl) as [H3 H4].
  destruct (Hmk "mkdir /tmp/vol: read-only file system" frozen frozen
              eq_refl eq_refl) as [H5 H6].
  repeat split; assumption.
Defined.

Lemma Unmount_backend_failure_then_retry_witness :
  let m := holding 1 (failingOn "umount /tmp/vol") in
  Err (Unmount unmountVol m).1 = "exit status 1" ∧
  calls (Unmount unmountVol (Unmount unmountVol m).2).2
    = [BackendUnmount "/tmp/vol"; BackendUnmount "/tmp/vol"].
Proof.
  intros m.
  destruct (Unmount_backend_failure_then_retry m unmountVol (volInfo 1)
              "exit status 1" (failingOn "umount /tmp/vol"))
    as (Herr & _ & Hagain).
  - vm_compute. reflexivity.
  - simpl. lia.
  - reflexivity.
  - split; [exact Herr|].
    rewrite (Hagain (Unmount unmountVol m).2 eq_refl). reflexivity.
Defined.

Lemma serve_other_volumes_witness :
  volumes (drv (serve (ReqUnmount unmountVol) (holdingTwo 1 calm)).2) !! "other"
    = Some otherInfo.
Proof.
  destruct (serve_other_volumes (ReqUnmount unmountVol) (holdingTwo 1 calm)
              "other") as [Hkept _].
  - discriminate.
  - rewrite Hkept. vm_compute. reflexivity.
Defined.

Lemma never_created_not_found_witness :
  Path {| Name := "other"; Options := None |}
       (serveAll createAndMount (start "/tmp" calm))
  = responseError "volume other not found"
      (serveAll createAndMount (start "/tmp" calm)).
Proof.
  destruct (never_created_not_found createAndMount "/tmp" calm "other")
    as [_ Hnot]; [reflexivity|].
  exact (Hnot (ReqPath {| Name := "other"; Options := None |})
           eq_refl eq_refl).
Defined.

Lemma reachable_mountPoint_witness :
  mountPoint (volInfo 0) = "/tmp/vol".
Proof.
  assert (Hreg : volumes (drv (serveAll createAndMount (start "/tmp" calm)))
                   !! "vol" = Some (volInfo 0)) by (vm_compute; reflexivity).
  exact (reachable_mountPoint createAndMount "/tmp" calm "vol" (volInfo 0) Hreg).
Defined.

Lemma reachable_registration_complete_witness :
  "vol" ≠ "" ∧
  endpoint playConfig ≠ "" ∧ bucket playConfig ≠ "" ∧
  accessKey playConfig ≠ "" ∧ secretKey playConfig ≠ "".
Proof.
  apply (reachable_registration_complete createAndMount "/tmp" calm "vol"
           (volInfo 0)).
  vm_compute. reflexivity.
Defined.

